(** * Yieldlab adapter of prebid-server: a shallow embedding

    The development follows [adapters/yieldlab/yieldlab.go] (the bidder
    adapter), the adapter's type file (response entry, injected clock and
    calendar-week capabilities) and the Prebid Cache client
    ([prebid_cache_client], [clientImpl.PutJson]).

    Go values are modelled as follows: [uint64], [uint] and [int8] are [Z];
    a pointer that may be nil is an [option]; [json.RawMessage] is an
    optional byte string ([None] is the nil slice); a Go [map] and
    [url.Values] are stdpp [gmap]s; a slice is a [list]; [float64] is a
    [spec_float] of precision 53 and maximal exponent 1024 (binary64).
    A run-time panic is an explicit outcome, never a stuck term. *)

From Stdlib Require Import ZArith Ascii String DecimalString SpecFloat.
From stdpp Require Import base option list strings gmap fin_maps.

Local Open Scope string_scope.
Local Open Scope Z_scope.

(** ** Outcomes of Go code: a value, or a run-time panic *)

Inductive PanicKind : Type :=
  | IndexOutOfRange (index len : nat)
  | NilDereference.

Inductive Outcome (A : Type) : Type :=
  | Ret (a : A)
  | Panic (p : PanicKind).
Arguments Ret {A} a.
Arguments Panic {A} p.

#[global] Instance Outcome_ret : MRet Outcome := fun A a => Ret a.

#[global] Instance Outcome_bind : MBind Outcome := fun A B k m =>
  match m with
  | Ret a => k a
  | Panic p => Panic p
  end.

(** [s[i]] on a slice: Go panics when the index is out of range. *)
Definition index_or_panic {A : Type} (l : list A) (i : nat) : Outcome A :=
  match l !! i with
  | Some a => Ret a
  | None => Panic (IndexOutOfRange i (length l))
  end.

(** [p.field] through a pointer: Go panics when the pointer is nil. *)
Definition deref {A : Type} (p : option A) : Outcome A :=
  match p with
  | Some a => Ret a
  | None => Panic NilDereference
  end.

(** ** The parts of [strings] and [strconv] the adapter calls *)

Module GoStrings.

(** [strings.Split s sep] for a non-empty separator: the pieces between the
    leftmost non-overlapping occurrences of [sep].  [skip] counts the bytes
    of a separator that was just matched and is still to be consumed; [cur]
    is the piece under construction. *)
Fixpoint split_go (sep : string) (skip : nat) (cur : string) (s : string)
  : list string :=
  match s with
  | EmptyString => [cur]
  | String c s' =>
      match skip with
      | S k => split_go sep k cur s'
      | O =>
          if String.prefix sep s
          then cur :: split_go sep (Nat.pred (String.length sep)) EmptyString s'
          else split_go sep O (cur +:+ String c EmptyString) s'
      end
  end.

(** With an empty separator Go explodes the string into its characters
    (bytes here: sizes are ASCII). *)
Definition Split (s sep : string) : list string :=
  match sep with
  | EmptyString => (fun c => String c EmptyString) <$> list_ascii_of_string s
  | _ => split_go sep O EmptyString s
  end.

(** [strings.Join]: the cases of the Go implementation on the length. *)
Definition Join (elems : list string) (sep : string) : string :=
  match elems with
  | [] => EmptyString
  | [e] => e
  | e :: rest => fold_left (fun b s => b +:+ sep +:+ s) rest e
  end.

End GoStrings.

Module GoStrconv.

Definition maxUint64 : Z := 2 ^ 64 - 1.

(** [*strconv.NumError]'s two causes. *)
Inductive NumError : Type :=
  | ErrSyntax (input : string)
  | ErrRange (input : string).

Definition digit_of (c : ascii) : option Z :=
  let n := Z.of_N (N_of_ascii c) in
  if (48 <=? n) && (n <=? 57) then Some (n - 48) else None.

(** The digit loop of [ParseUint s 10 64]: [cutoff] is the least [n] with
    [n * 10 > maxUint64]; the additions are on [uint64] and wrap. *)
Fixpoint parse_loop (s0 : string) (n : Z) (s : string) : Z * option NumError :=
  match s with
  | EmptyString => (n, None)
  | String c s' =>
      match digit_of c with
      | None => (0, Some (ErrSyntax s0))
      | Some d =>
          let cutoff := maxUint64 / 10 + 1 in
          if cutoff <=? n then (maxUint64, Some (ErrRange s0))
          else
            let n10 := (n * 10) mod 2 ^ 64 in
            let n1 := (n10 + d) mod 2 ^ 64 in
            if (n1 <? n10) || (maxUint64 <? n1)
            then (maxUint64, Some (ErrRange s0))
            else parse_loop s0 n1 s'
      end
  end.

(** [strconv.ParseUint s 10 64]. *)
Definition ParseUint (s : string) : Z * option NumError :=
  match s with
  | EmptyString => (0, Some (ErrSyntax s))
  | _ => parse_loop s 0 s
  end.

(** [strconv.FormatUint n 10] and [strconv.Itoa] on a non-negative value. *)
Definition FormatUint (n : Z) : string :=
  NilZero.string_of_uint (N.to_uint (Z.to_N n)).

(** [fmt.Sprintf "%v"] on a signed integer. *)
Definition FormatInt (n : Z) : string :=
  if n <? 0 then "-" +:+ FormatUint (- n) else FormatUint n.

End GoStrconv.

Import GoStrings GoStrconv.

(** A JSON member name or string value in its quotes (the quote is ASCII 34). *)
Definition quoted (s : string) : string :=
  String "034" (s +:+ String "034" EmptyString).

(** ** Data model *)

(** [json.RawMessage]: [None] is the nil slice. *)
Definition RawMessage : Type := option string.

Definition raw_bytes (r : RawMessage) : string := default EmptyString r.

(** [url.Values] and [http.Header]: a key maps to the list of its values. *)
Abbreviation Values := (gmap string (list string)).

Definition Values_Set (k v : string) (q : Values) : Values := <[k := [v]]> q.

Definition Header_Add (k v : string) (h : Values) : Values :=
  <[k := (default [] (h !! k) ++ [v])%list]> h.

(** Modelled from the spec: the type [openrtb_ext.ExtImpYieldlab] is declared
    outside the adapter's files; these are the fields the adapter reads (the
    spec's LineItemParams: slot ID, supply ID, external ID, targeting). *)
Record ExtImpYieldlab : Type := {
  AdslotID : string;
  SupplyID : string;
  Targeting : gmap string string;
  ExtId : string
}.

(** Modelled from the spec: [adapters.ExtImpBidder], the generic extension
    envelope whose [bidder] member holds the vendor's sub-object. *)
Record ExtImpBidder : Type := { Bidder : RawMessage }.

(** Modelled from the spec: [openrtb_ext.ExtRegs] ([GDPR] is a [*int8]) and
    [openrtb_ext.ExtUser], of which the adapter reads one field each. *)
Record ExtRegs : Type := { GDPR : option Z }.
Record ExtUser : Type := { Consent : string }.

(** The generic bid request ([openrtb.BidRequest]), restricted to what the
    adapter reads. *)
Record Banner : Type := { Banner_W : Z; Banner_H : Z }.
Record Video : Type := { Video_W : Z; Video_H : Z }.

Record Imp : Type := {
  Imp_ID : string;
  Imp_Banner : option Banner;
  Imp_Video : option Video;
  Imp_Ext : RawMessage
}.

Record Site : Type := { Page : string }.
Record Geo : Type := { Lat : spec_float; Lon : spec_float }.

Record Device : Type := {
  UA : string;
  IP : string;
  IFA : string;
  DeviceType : Z;
  ConnectionType : option Z;
  Device_Geo : option Geo
}.

Record User : Type := { BuyerUID : string; User_Ext : RawMessage }.
Record App : Type := { App_Name : string; Bundle : string }.
Record Regs : Type := { Regs_Ext : RawMessage }.

Record BidRequest : Type := {
  Req_Imp : list Imp;
  Req_Site : option Site;
  Req_Device : option Device;
  Req_User : option User;
  Req_App : option App;
  Req_Regs : option Regs
}.

(** The adapter's own types. *)
Record dsaTransparency : Type := { Domain : string; Params : list Z }.

Record dsaResponse : Type := {
  Behalf : string;
  Paid : string;
  Adrender : Z;
  Transparency : list dsaTransparency
}.

Record bidResponse : Type := {
  ID : Z;
  Price : Z;
  Advertiser : string;
  Adsize : string;
  Pid : Z;
  Did : Z;
  Pvid : string;
  DSA : option dsaResponse
}.

(** [cacheBuster] and [weekGenerator] are function-valued fields; the
    adapter only ever calls them, so a field is the function. *)
Record YieldlabAdapter : Type := {
  endpoint : string;
  cacheBuster : unit -> string;
  getWeek : unit -> string
}.

(** What the host gets back. *)
Record RequestData : Type := {
  Method : string;
  Uri : string;
  Headers : Values
}.

Record ResponseData : Type := { StatusCode : Z; Body : string }.

Inductive BidType : Type := BidTypeBanner | BidTypeVideo.

Record Bid : Type := {
  Bid_ID : string;
  Bid_Price : spec_float;
  ImpID : string;
  CrID : string;
  DealID : string;
  W : Z;
  H : Z;
  NURL : string;
  AdM : string
}.

Record TypedBid : Type := { TB_Bid : Bid; TB_BidType : BidType }.

Record BidderResponse : Type := { Currency : string; Bids : list TypedBid }.

(** The errors the adapter builds, with the values their messages print. *)
Inductive Error : Type :=
  | ErrEndpoint (cause : string)
  | ErrExtRegs (cause : string)
  | ErrExtUser (cause : string)
  | BadInput (message : string)
  | ErrResponseCode (code : Z)
  | ErrBidsBody (cause : string)
  | ErrAdsize (cause : NumError)
  | ErrNoRequest (adslotID : Z).

Definition NumError_message (e : NumError) : string :=
  match e with
  | ErrSyntax s =>
      "strconv.ParseUint: parsing " +:+ quoted s +:+ ": invalid syntax"
  | ErrRange s =>
      "strconv.ParseUint: parsing " +:+ quoted s +:+ ": value out of range"
  end.

Definition Error_message (e : Error) : string :=
  match e with
  | ErrEndpoint c => "failed to parse yieldlab endpoint: " +:+ c
  | ErrExtRegs c => "failed to parse ExtRegs in Yieldlab GDPR check: " +:+ c
  | ErrExtUser c => "failed to parse ExtUser in Yieldlab GDPR check: " +:+ c
  | BadInput m => m
  | ErrResponseCode code =>
      "failed to resolve bids from yieldlab response: Unexpected response code "
      +:+ FormatInt code
  | ErrBidsBody c => "failed to parse bids response from yieldlab: " +:+ c
  | ErrAdsize c => "failed to parse yieldlab adsize: " +:+ NumError_message c
  | ErrNoRequest id =>
      "failed to find yieldlab request for adslotID " +:+ FormatUint id
      +:+ ". This is most likely a programming issue"
  end.

(** ** What the adapter takes from outside its files *)

Record URL : Type := {
  Scheme : string;
  Host : string;
  Path : string;
  RawQuery : string
}.

(** The Go packages the adapter calls into ([encoding/json], [net/url],
    [path], [fmt]): a decoder returns its error message on the left. *)
Record GoLib : Type := {
  Unmarshal_ExtImpBidder : string -> string + ExtImpBidder;
  Unmarshal_ExtImpYieldlab : string -> string + ExtImpYieldlab;
  Unmarshal_ExtRegs : string -> string + ExtRegs;
  Unmarshal_ExtUser : string -> string + ExtUser;
  Unmarshal_bids : string -> string + list (option bidResponse);
  url_Parse : string -> string + URL;
  URL_Query : URL -> Values;
  URL_String : URL -> string;
  Values_Encode : Values -> string;
  path_Join : string -> string -> string;
  Sprint_float : spec_float -> string
}.

(** The format constants [adSourceBanner], [adSourceURL] and [creativeID] are
    declared outside the adapter's files and the spec does not give their
    text: each is a parameter, taken with [fmt.Sprintf] already applied to it,
    as a function of the arguments it formats. *)
Record Formats : Type := {
  adSourceBanner : string -> string;
  adSourceURL : string -> string -> string -> string -> string;
  creativeID : string -> Z -> string -> string
}.

(** Modelled from the spec: the two separators are declared outside the
    adapter's files; the spec fixes the slot-ID join as ["123,456"] and the
    size shape as ["<width>x<height>"]. *)
Definition adSlotIdSeparator : string := ",".
Definition adsizeSeparator : string := "x".

(** [currency.EUR.String ()]. *)
Definition currency_EUR : string := "EUR".

Definition nonempty (s : string) : bool := negb (String.eqb s EmptyString).

(** ** The adapter *)

(** [float64 (n)] of an unsigned integer, and the [float64] division. *)
Definition float64_of_uint (n : Z) : spec_float := binary_normalize 53 1024 n 0 false.
Definition float64_div (x y : spec_float) : spec_float := SFdiv 53 1024 x y.

(** [splitSize]: a size that does not split into two parts is (0, 0) with no
    error; a part that is not an unsigned decimal is an error. *)
Definition splitSize (size : string) : Z * Z * option Error :=
  let sizeParts := Split size adsizeSeparator in
  if negb (Nat.eqb (length sizeParts) 2) then (0, 0, None)
  else
    match ParseUint (nth 0 sizeParts EmptyString) with
    | (_, Some err) => (0, 0, Some (ErrAdsize err))
    | (width, None) =>
        match ParseUint (nth 1 sizeParts EmptyString) with
        | (_, Some err) => (0, 0, Some (ErrAdsize err))
        | (height, None) => (width, height, None)
        end
    end.




(** [findBidReq]: the first line-item whose slot ID is the decimal rendering
    of the entry's id; [None] is the nil pointer. *)
Fixpoint findBidReq (adslotID : Z) (params : list ExtImpYieldlab)
  : option ExtImpYieldlab :=
  match params with
  | [] => None
  | p :: rest =>
      if String.eqb (AdslotID p) (FormatUint adslotID) then Some p
      else findBidReq adslotID rest
  end.

(** One round of the loop of [mergeParams]: the slot ID is appended, every
    targeting entry of the line-item is stored in the shared map. *)
Definition mergeStep (st : list string * gmap string string) (p : ExtImpYieldlab)
  : list string * gmap string string :=
  ((st.1 ++ [AdslotID p])%list,
   map_fold (fun k v targeting => <[k := v]> targeting) st.2 (Targeting p)).

Definition mergeParams (params : list ExtImpYieldlab) : Error + ExtImpYieldlab :=
  let '(adSlotIds, targeting) := fold_left mergeStep params ([], ∅) in
  inr {| AdslotID := Join adSlotIds adSlotIdSeparator;
         SupplyID := EmptyString;
         Targeting := targeting;
         ExtId := EmptyString |}.

Section Adapter.

Context (L : GoLib) (F : Formats).

(** [getGDPR]: the regulatory extension is decoded whenever the request has
    a [Regs] object; the user extension only when [User] and its [Ext] are
    both non-nil. *)
Definition getGDPR (request : BidRequest) : Error + (string * string) :=
  let gdpr_or_err : Error + string :=
    match Req_Regs request with
    | Some regs =>
        match Unmarshal_ExtRegs L (raw_bytes (Regs_Ext regs)) with
        | inl err => inl (ErrExtRegs err)
        | inr extRegs =>
            match GDPR extRegs with
            | Some g =>
                if (g =? 0) || (g =? 1) then inr (FormatInt g)
                else inr EmptyString
            | None => inr EmptyString
            end
        end
    | None => inr EmptyString
    end in
  match gdpr_or_err with
  | inl err => inl err
  | inr gdpr =>
      match Req_User request with
      | Some user =>
          match User_Ext user with
          | Some ext =>
              match Unmarshal_ExtUser L ext with
              | inl err => inl (ErrExtUser err)
              | inr extUser => inr (gdpr, Consent extUser)
              end
          | None => inr (gdpr, EmptyString)
          end
      | None => inr (gdpr, EmptyString)
      end
  end.

(** The both-or-nothing gate shared by the two URL builders. *)
Definition setGDPR (gdpr consent : string) (q : Values) : Values :=
  if nonempty gdpr && nonempty consent
  then Values_Set "consent" consent (Values_Set "gdpr" gdpr q)
  else q.

Definition makeTargetingValues (params : ExtImpYieldlab) : string :=
  Values_Encode L
    (map_fold (fun k v values => Values_Set k v values) ∅ (Targeting params)).

(** The query of the endpoint URL before the regulatory parameters: it
    starts from the query the configured endpoint already carries. *)
Definition endpointValues (a : YieldlabAdapter) (req : BidRequest)
    (params : ExtImpYieldlab) (uri : URL) : Values :=
  let q := URL_Query L uri in
  let q := Values_Set "content" "json" q in
  let q := Values_Set "pvid" "true" q in
  let q := Values_Set "ts" (cacheBuster a tt) q in
  let q := Values_Set "t" (makeTargetingValues params) q in
  let q :=
    match Req_User req with
    | Some user =>
        if nonempty (BuyerUID user)
        then Values_Set "ids" ("ylid:" +:+ BuyerUID user) q else q
    | None => q
    end in
  let q :=
    match Req_Device req with
    | Some device =>
        let q := Values_Set "yl_rtb_ifa" (IFA device) q in
        let q := Values_Set "yl_rtb_devicetype" (FormatInt (DeviceType device)) q in
        let q :=
          match ConnectionType device with
          | Some ct => Values_Set "yl_rtb_connectiontype" (FormatInt ct) q
          | None => q
          end in
        match Device_Geo device with
        | Some geo =>
            Values_Set "lon" (Sprint_float L (Lon geo))
              (Values_Set "lat" (Sprint_float L (Lat geo)) q)
        | None => q
        end
    | None => q
    end in
  match Req_App req with
  | Some app =>
      Values_Set "pubbundlename" (Bundle app)
        (Values_Set "pubappname" (App_Name app) q)
  | None => q
  end.

Definition makeEndpointURL (a : YieldlabAdapter) (req : BidRequest)
    (params : ExtImpYieldlab) : Error + string :=
  match url_Parse L (endpoint a) with
  | inl err => inl (ErrEndpoint err)
  | inr uri =>
      let q := endpointValues a req params uri in
      match getGDPR req with
      | inl err => inl err
      | inr (gdpr, consent) =>
          let q := setGDPR gdpr consent q in
          inr (URL_String L
                 {| Scheme := Scheme uri;
                    Host := Host uri;
                    Path := path_Join L (Path uri) (AdslotID params);
                    RawQuery := Values_Encode L q |})
      end
  end.

(** [parseRequest]: the loop over the line-items, leaving at the first
    extension that does not decode. *)
Fixpoint parseImps (imps : list Imp) (params : list ExtImpYieldlab)
  : Error + list ExtImpYieldlab :=
  match imps with
  | [] => inr params
  | imp :: rest =>
      match Unmarshal_ExtImpBidder L (raw_bytes (Imp_Ext imp)) with
      | inl err => inl (BadInput err)
      | inr bidderExt =>
          match Unmarshal_ExtImpYieldlab L (raw_bytes (Bidder bidderExt)) with
          | inl err => inl (BadInput err)
          | inr yieldlabExt => parseImps rest (params ++ [yieldlabExt])%list
          end
      end
  end.

Definition parseRequest (request : BidRequest) : Error + list ExtImpYieldlab :=
  parseImps (Req_Imp request) [].

Definition makeRequest (a : YieldlabAdapter) (request : BidRequest)
  : option RequestData * list Error :=
  match parseRequest request with
  | inl err => (None, [err])
  | inr params =>
      match mergeParams params with
      | inl err => (None, [err])
      | inr mergedParams =>
          match makeEndpointURL a request mergedParams with
          | inl err => (None, [err])
          | inr bidURL =>
              let headers := Header_Add "Accept" "application/json" ∅ in
              let headers :=
                match Req_Site request with
                | Some site => Header_Add "Referer" (Page site) headers
                | None => headers
                end in
              let headers :=
                match Req_Device request with
                | Some device =>
                    Header_Add "X-Forwarded-For" (IP device)
                      (Header_Add "User-Agent" (UA device) headers)
                | None => headers
                end in
              let headers :=
                match Req_User request with
                | Some user => Header_Add "Cookie" ("id=" +:+ BuyerUID user) headers
                | None => headers
                end in
              (Some {| Method := "GET"; Uri := bidURL; Headers := headers |}, [])
          end
      end
  end.

Definition MakeRequests (a : YieldlabAdapter) (request : BidRequest)
  : list RequestData * list Error :=
  let '(adapterReq, errors) := makeRequest a request in
  (match adapterReq with Some r => [r] | None => [] end, errors).

(** The query of the ad-source URL: a failed regulatory extraction leaves
    the two regulatory parameters out. *)
Definition adSourceValues (a : YieldlabAdapter) (req : BidRequest)
    (ext : ExtImpYieldlab) (res : bidResponse) : Values :=
  let val := Values_Set "ts" (cacheBuster a tt) ∅ in
  let val := Values_Set "id" (ExtId ext) val in
  let val := Values_Set "pvid" (Pvid res) val in
  let val :=
    match Req_User req with
    | Some user => Values_Set "ids" ("ylid:" +:+ BuyerUID user) val
    | None => val
    end in
  match getGDPR req with
  | inr (gdpr, consent) => setGDPR gdpr consent val
  | inl _ => val
  end.

Definition makeAdSourceURL (a : YieldlabAdapter) (req : BidRequest)
    (ext : ExtImpYieldlab) (res : bidResponse) : string :=
  adSourceURL F (AdslotID ext) (SupplyID ext) (Adsize res)
    (Values_Encode L (adSourceValues a req ext res)).

Definition makeBannerAdSource (a : YieldlabAdapter) (req : BidRequest)
    (ext : ExtImpYieldlab) (res : bidResponse) : string :=
  adSourceBanner F (makeAdSourceURL a req ext res).

Definition makeCreativeID (a : YieldlabAdapter) (req : ExtImpYieldlab)
    (bid : bidResponse) : string :=
  creativeID F (AdslotID req) (Pid bid) (getWeek a tt).

(** The loop of [MakeBids] from entry [i] on; [acc] is
    [bidderResponse.Bids].  The line-item is found by the entry's id, the
    impression is read at the entry's position. *)
Fixpoint bidsLoop (a : YieldlabAdapter) (internalRequest : BidRequest)
    (requests : list ExtImpYieldlab) (i : nat)
    (bids : list (option bidResponse)) (acc : list TypedBid)
  : Outcome (option BidderResponse * list Error) :=
  match bids with
  | [] => Ret (Some {| Currency := currency_EUR; Bids := acc |}, [])
  | pbid :: rest =>
      bid ← deref pbid;
      match splitSize (Adsize bid) with
      | (_, _, Some err) => Ret (None, [err])
      | (width, height, None) =>
          match findBidReq (ID bid) requests with
          | None => Ret (None, [ErrNoRequest (ID bid)])
          | Some req =>
              imp ← index_or_panic (Req_Imp internalRequest) i;
              let responseBid nurl adm :=
                {| Bid_ID := FormatUint (ID bid);
                   Bid_Price := float64_div (float64_of_uint (Price bid))
                                  (float64_of_uint 100);
                   ImpID := Imp_ID imp;
                   CrID := makeCreativeID a req bid;
                   DealID := FormatUint (Pid bid);
                   W := width;
                   H := height;
                   NURL := nurl;
                   AdM := adm |} in
              match Imp_Video imp, Imp_Banner imp with
              | Some _, _ =>
                  bidsLoop a internalRequest requests (S i) rest
                    (acc ++ [{| TB_Bid := responseBid
                                  (makeAdSourceURL a internalRequest req bid)
                                  EmptyString;
                                TB_BidType := BidTypeVideo |}])%list
              | None, Some _ =>
                  bidsLoop a internalRequest requests (S i) rest
                    (acc ++ [{| TB_Bid := responseBid EmptyString
                                  (makeBannerAdSource a internalRequest req bid);
                                TB_BidType := BidTypeBanner |}])%list
              | None, None =>
                  bidsLoop a internalRequest requests (S i) rest acc
              end
          end
      end
  end.

Definition MakeBids (a : YieldlabAdapter) (internalRequest : BidRequest)
    (externalRequest : RequestData) (response : ResponseData)
  : Outcome (option BidderResponse * list Error) :=
  if negb (StatusCode response =? 200)
  then Ret (None, [ErrResponseCode (StatusCode response)])
  else
    match Unmarshal_bids L (Body response) with
    | inl err => Ret (None, [ErrBidsBody err])
    | inr bids =>
        match parseRequest internalRequest with
        | inl err => Ret (None, [err])
        | inr requests => bidsLoop a internalRequest requests 0 bids []
        end
    end.

End Adapter.

(** ** The Prebid Cache client *)

Module Cache.

(** A JSON document as [gjson] sees it once the text is known to be valid. *)
#[warnings="-register-all"]
Inductive JSON : Type :=
  | JNull
  | JBool (b : bool)
  | JNumber (literal : string)
  | JString (s : string)
  | JArray (elems : list JSON)
  | JObject (members : list (string * JSON)).

(** [Result.Get key] for a plain key: the first member of an object with
    that key; anything else has no such member ([None] is the result that
    does not exist, of type [gjson.Null]). *)
Fixpoint member (key : string) (members : list (string * JSON)) : option JSON :=
  match members with
  | [] => None
  | (k, v) :: rest => if String.eqb k key then Some v else member key rest
  end.

Definition Get (j : JSON) (key : string) : option JSON :=
  match j with
  | JObject members => member key members
  | _ => None
  end.

Record HTTPResponse : Type := { Resp_StatusCode : Z; Resp_Body : string }.

Record HTTPRequest : Type := {
  Req_Method : string;
  Req_URL : string;
  Req_Header : Values;
  Req_Body : string
}.

(** What the client takes from outside: [json.Marshal] on a raw message,
    [http.NewRequest], the exchange with the cache service
    ([ctxhttp.Do] followed by [ioutil.ReadAll]) and [gjson]'s parser
    ([None]: the bytes are not valid JSON). *)
Record CacheLib : Type := {
  Marshal_raw : RawMessage -> string + string;
  NewRequest : string -> string -> string -> string + HTTPRequest;
  Do : HTTPRequest -> string + HTTPResponse;
  gjson_parse : string -> option JSON
}.

Record clientImpl : Type := { putUrl : string }.

(** The lines [glog.Errorf] writes. *)
Inductive LogLine : Type :=
  | LogEncode (err : string)
  | LogNewRequest (err : string)
  | LogSend (err : string)
  | LogStatus (code : Z) (body : string)
  | LogInvalidJSON (body : string)
  | LogNotArray (body : string)
  | LogMalformedElement (body : string).

(** [uuidsToReturn[i] = v]: Go panics when [i] is out of range. *)
Definition store (uuids : list string) (i : nat) (v : string)
  : Outcome (list string) :=
  if decide (i < length uuids)%nat then Ret (<[i := v]> uuids)
  else Panic (IndexOutOfRange i (length uuids)).

(** The state the closure passed to [ForEach] captures. *)
Record LoopState : Type := {
  currentIndex : nat;
  uuidsToReturn : list string;
  logged : list LogLine
}.

(** The closure passed to [responses.ForEach], applied to one element. *)
Definition visit (responseBody : string) (st : LoopState) (response : JSON)
  : Outcome LoopState :=
  match Get response "uuid" with
  | Some (JString id) =>
      uuids ← store (uuidsToReturn st) (currentIndex st) id;
      Ret {| currentIndex := S (currentIndex st);
             uuidsToReturn := uuids;
             logged := logged st |}
  | _ =>
      Ret {| currentIndex := S (currentIndex st);
             uuidsToReturn := uuidsToReturn st;
             logged := (logged st ++ [LogMalformedElement responseBody])%list |}
  end.

(** [ForEach] over the elements of the array, in order; the closure always
    asks for the next element. *)
Fixpoint forEach (responseBody : string) (responses : list JSON) (st : LoopState)
  : Outcome LoopState :=
  match responses with
  | [] => Ret st
  | r :: rest => st' ← visit responseBody st r; forEach responseBody rest st'
  end.

Section Client.

Context (E : CacheLib).

Definition encodeValueToBuffer (value : RawMessage) (leadingComma : bool)
    (buffer : string) : string + string :=
  let buffer := if leadingComma then buffer +:+ "," else buffer in
  match Marshal_raw E value with
  | inl err => inl err
  | inr encodedBytes =>
      inr (buffer +:+ "{" +:+ quoted "type" +:+ ":" +:+ quoted "json" +:+ ","
           +:+ quoted "value" +:+ ":" +:+ encodedBytes +:+ "}")
  end.

Fixpoint encodeLoop (values : list RawMessage) (i : nat) (buf : string)
  : string + string :=
  match values with
  | [] => inr buf
  | v :: rest =>
      match encodeValueToBuffer v (negb (Nat.eqb i 0)) buf with
      | inl err => inl err
      | inr buf' => encodeLoop rest (S i) buf'
      end
  end.

Definition encodeValues (values : list RawMessage) : string + string :=
  match encodeLoop values 0 ("{" +:+ quoted "puts" +:+ ":[") with
  | inl err => inl err
  | inr buf => inr (buf +:+ "]}")
  end.

(** [PutJson]: the IDs returned together with the lines logged. *)
Definition PutJson (c : clientImpl) (values : list RawMessage)
  : Outcome (list string * list LogLine) :=
  if (length values <? 1)%nat then Ret ([], [])
  else
    let uuidsToReturn := replicate (length values) EmptyString in
    match encodeValues values with
    | inl err => Ret (uuidsToReturn, [LogEncode err])
    | inr postBody =>
        match NewRequest E "POST" (putUrl c) postBody with
        | inl err => Ret (uuidsToReturn, [LogNewRequest err])
        | inr httpReq =>
            let httpReq :=
              {| Req_Method := Req_Method httpReq;
                 Req_URL := Req_URL httpReq;
                 Req_Header :=
                   Header_Add "Accept" "application/json"
                     (Header_Add "Content-Type" "application/json;charset=utf-8"
                        (Req_Header httpReq));
                 Req_Body := Req_Body httpReq |} in
            match Do E httpReq with
            | inl err => Ret (uuidsToReturn, [LogSend err])
            | inr anResp =>
                let responseBody := Resp_Body anResp in
                if negb (Resp_StatusCode anResp =? 200)
                then Ret (uuidsToReturn,
                          [LogStatus (Resp_StatusCode anResp) responseBody])
                else
                  match gjson_parse E responseBody with
                  | None => Ret (uuidsToReturn, [LogInvalidJSON responseBody])
                  | Some doc =>
                      match Get doc "responses" with
                      | Some (JArray responses) =>
                          st ← forEach responseBody responses
                                 {| currentIndex := 0;
                                    uuidsToReturn := uuidsToReturn;
                                    logged := [] |};
                          Ret (Cache.uuidsToReturn st, logged st)
                      | _ => Ret (uuidsToReturn, [LogNotArray responseBody])
                      end
                  end
            end
        end
    end.

End Client.

End Cache.

(** ** Fixtures: a request, payloads and stubbed packages, as a test has them *)

Module Fixtures.

Definition decode_table {A : Type} (table : list (string * A)) (data : string)
  : string + A :=
  if String.eqb data EmptyString then inl "unexpected end of JSON input"
  else
    match List.find (fun row => String.eqb row.1 data) table with
    | Some row => inr row.2
    | None => inl "invalid character"
    end.

Definition slot_json (slot : string) : string :=
  "{" +:+ quoted "adslotId" +:+ ":" +:+ quoted slot +:+ "}".

Definition imp_ext (slot : string) : string :=
  "{" +:+ quoted "bidder" +:+ ":" +:+ slot_json slot +:+ "}".

Definition slot_params (slot : string) : ExtImpYieldlab :=
  {| AdslotID := slot; SupplyID := "1"; Targeting := ∅; ExtId := "ext" |}.

Definition regs_gdpr1 : string := "{" +:+ quoted "gdpr" +:+ ":1}".
Definition user_consent : string :=
  "{" +:+ quoted "consent" +:+ ":" +:+ quoted "abc" +:+ "}".

Definition entry (id price : Z) (adsize : string) : bidResponse :=
  {| ID := id; Price := price; Advertiser := "yieldlab"; Adsize := adsize;
     Pid := 7; Did := 1; Pvid := "abc"; DSA := None |}.

Definition entry_json (id price : Z) (adsize : string) : string :=
  "{" +:+ quoted "id" +:+ ":" +:+ FormatUint id +:+ ","
  +:+ quoted "price" +:+ ":" +:+ FormatUint price +:+ ","
  +:+ quoted "adsize" +:+ ":" +:+ quoted adsize +:+ ","
  +:+ quoted "pid" +:+ ":7," +:+ quoted "did" +:+ ":1,"
  +:+ quoted "pvid" +:+ ":" +:+ quoted "abc" +:+ "}".

(** Response bodies: one good entry; a bad size; two matching entries and
    then one for a slot nobody asked for. *)
Definition body_one : string := "[" +:+ entry_json 123 150 "300x250" +:+ "]".
Definition body_plain_size : string := "[" +:+ entry_json 123 150 "300" +:+ "]".
Definition body_bad_width : string := "[" +:+ entry_json 123 150 "axb" +:+ "]".
Definition body_long : string :=
  "[" +:+ entry_json 123 150 "300x250" +:+ "," +:+ entry_json 123 150 "300x250"
  +:+ "," +:+ entry_json 999 150 "300x250" +:+ "]".

Definition body_huge_price : string :=
  "[" +:+ entry_json 123 675539944105576000 "300x250" +:+ "]".

Definition stubLib : GoLib :=
  {| Unmarshal_ExtImpBidder :=
       decode_table [(imp_ext "123", {| Bidder := Some (slot_json "123") |});
                     (imp_ext "456", {| Bidder := Some (slot_json "456") |})];
     Unmarshal_ExtImpYieldlab :=
       decode_table [(slot_json "123", slot_params "123");
                     (slot_json "456", slot_params "456")];
     Unmarshal_ExtRegs := decode_table [(regs_gdpr1, {| GDPR := Some 1 |})];
     Unmarshal_ExtUser := decode_table [(user_consent, {| Consent := "abc" |})];
     Unmarshal_bids :=
       decode_table
         [(body_one, [Some (entry 123 150 "300x250")]);
          (body_plain_size, [Some (entry 123 150 "300")]);
          (body_bad_width, [Some (entry 123 150 "axb")]);
          (body_huge_price, [Some (entry 123 675539944105576000 "300x250")]);
          (body_long, [Some (entry 123 150 "300x250");
                       Some (entry 123 150 "300x250");
                       Some (entry 999 150 "300x250")])];
     url_Parse := fun s =>
       if String.eqb s "https://ad.yieldlab.net/yp"
       then inr {| Scheme := "https"; Host := "ad.yieldlab.net";
                   Path := "/yp"; RawQuery := EmptyString |}
       else inl "invalid URL";
     URL_Query := fun _ => ∅;
     URL_String := fun u =>
       Scheme u +:+ "://" +:+ Host u +:+ Path u +:+ "?" +:+ RawQuery u;
     Values_Encode := fun q =>
       String.concat "&"
         ((fun kv => kv.1 +:+ "=" +:+ String.concat "," kv.2) <$> map_to_list q);
     path_Join := fun dir name => dir +:+ "/" +:+ name;
     Sprint_float := fun _ => "0" |}.




Definition stubFormats : Formats :=
  {| adSourceBanner := fun url => "<script src=" +:+ url +:+ "></script>";
     adSourceURL := fun slot supply size query =>
       "https://ad.yieldlab.net/d/" +:+ slot +:+ "/" +:+ supply +:+ "/" +:+ size
       +:+ "?" +:+ query;
     creativeID := fun slot pid week => slot +:+ FormatUint pid +:+ week |}.

Definition adapter : YieldlabAdapter :=
  {| endpoint := "https://ad.yieldlab.net/yp";
     cacheBuster := fun _ => "testing";
     getWeek := fun _ => "33" |}.

Definition banner_imp (id slot : string) : Imp :=
  {| Imp_ID := id;
     Imp_Banner := Some {| Banner_W := 300; Banner_H := 250 |};
     Imp_Video := None;
     Imp_Ext := Some (imp_ext slot) |}.

Definition request (imps : list Imp) (user : option User) (regs : option Regs)
  : BidRequest :=
  {| Req_Imp := imps; Req_Site := None; Req_Device := None; Req_User := user;
     Req_App := None; Req_Regs := regs |}.

Definition outbound : RequestData :=
  {| Method := "GET"; Uri := "https://ad.yieldlab.net/yp/123"; Headers := ∅ |}.

(** Two line-items whose targeting maps share the key b. *)
Definition params_first : ExtImpYieldlab :=
  {| AdslotID := "123"; SupplyID := "1";
     Targeting := <["a" := "1"]> (<["b" := "2"]> ∅); ExtId := "ext" |}.

Definition params_second : ExtImpYieldlab :=
  {| AdslotID := "456"; SupplyID := "1";
     Targeting := <["b" := "3"]> ∅; ExtId := "ext" |}.

(** A cache service that answers a single put with two IDs. *)
Definition cache_doc : Cache.JSON :=
  Cache.JObject
    [("responses",
      Cache.JArray [Cache.JObject [("uuid", Cache.JString "first")];
                    Cache.JObject [("uuid", Cache.JString "second")]])].

Definition cache_body : string :=
  "{" +:+ quoted "responses" +:+ ":[{" +:+ quoted "uuid" +:+ ":"
  +:+ quoted "first" +:+ "},{" +:+ quoted "uuid" +:+ ":" +:+ quoted "second"
  +:+ "}]}".

Definition stubCache : Cache.CacheLib :=
  {| Cache.Marshal_raw := fun v =>
       inr (match v with Some bytes => bytes | None => "null" end);
     Cache.NewRequest := fun method url body =>
       inr {| Cache.Req_Method := method; Cache.Req_URL := url;
              Cache.Req_Header := ∅; Cache.Req_Body := body |};
     Cache.Do := fun _ =>
       inr {| Cache.Resp_StatusCode := 200; Cache.Resp_Body := cache_body |};
     Cache.gjson_parse := fun body =>
       if String.eqb body cache_body then Some cache_doc else None |}.

Definition cacheClient : Cache.clientImpl :=
  {| Cache.putUrl := "http://localhost/cache" |}.

End Fixtures.

(** ** Predicates the statements use *)


(** An entry the loop gets past without leaving: not a null element, a size
    that parses, a line-item with its slot ID. *)
Definition passes (requests : list ExtImpYieldlab) (pbid : option bidResponse)
  : Prop :=
  exists bid, pbid = Some bid /\
    (splitSize (Adsize bid)).2 = None /\
    is_Some (findBidReq (ID bid) requests).



(** The value of a binary64 number as a fraction: [x] is exactly
    [num / den], for a positive [den]. *)
Definition represents (x : spec_float) (num den : Z) : Prop :=
  match x with
  | S754_zero _ => num = 0
  | S754_finite s m e =>
      let sm := if s then - Zpos m else Zpos m in
      if 0 <=? e then sm * 2 ^ e * den = num else sm * den = num * 2 ^ (- e)
  | _ => False
  end.



Import Fixtures.

(** * Properties *)

(** ** The library models on the inputs the adapter's tests use *)

Example Split_size : Split "300x250" "x" = ["300"; "250"].
Proof. reflexivity. Qed.

Example Split_many : Split "1x2x3" "x" = ["1"; "2"; "3"].
Proof. reflexivity. Qed.

Example Split_edges : Split "x" "x" = [""; ""] /\ Split "" "x" = [""].
Proof. split; reflexivity. Qed.

Example ParseUint_max :
  ParseUint "18446744073709551615" = (maxUint64, None) /\
  ParseUint "18446744073709551616" = (maxUint64, Some (ErrRange "18446744073709551616")).
Proof. split; vm_compute; reflexivity. Qed.

Example FormatUint_123 : FormatUint 123 = "123" /\ FormatUint 0 = "0".
Proof. split; reflexivity. Qed.

(** ** Size parsing *)





(** ** The response mapper *)

Section ResponseMapper.

Context (L : GoLib) (F : Formats) (a : YieldlabAdapter).

Lemma parseImps_length (imps : list Imp) : forall params out,
  parseImps L imps params = inr out ->
  length out = (length params + length imps)%nat.
Proof.
  induction imps as [|imp imps IH]; intros params out Hp; simpl in *.
  - injection Hp as <-. lia.
  - destruct (Unmarshal_ExtImpBidder L _) as [|bidderExt]; [discriminate|].
    destruct (Unmarshal_ExtImpYieldlab L _) as [|yieldlabExt]; [discriminate|].
    apply IH in Hp. rewrite length_app in Hp. simpl in Hp. lia.
Qed.

Lemma parseRequest_length (request : BidRequest) (requests : list ExtImpYieldlab) :
  parseRequest L request = inr requests ->
  length requests = length (Req_Imp request).
Proof. intros Hp. apply parseImps_length in Hp. exact Hp. Qed.


(** An entry no line-item answers for ends the loop with the correlation
    error and no bids. *)
Lemma bidsLoop_no_request req requests i bid rest acc w h :
  splitSize (Adsize bid) = (w, h, None) ->
  findBidReq (ID bid) requests = None ->
  bidsLoop L F a req requests i (Some bid :: rest) acc
  = Ret (None, [ErrNoRequest (ID bid)]).
Proof. intros Hs Hf. simpl. rewrite Hs, Hf. reflexivity. Qed.



End ResponseMapper.




(** C6.  A transport result whose status code is not 200 yields no bids and
    exactly one error, which carries the status code and prints it; with
    status 200, a body that does not decode as the array of vendor entries
    yields no bids and exactly one error. *)
Theorem MakeBids_upstream_failure (L : GoLib) (F : Formats) (a : YieldlabAdapter)
    (req : BidRequest) (ext : RequestData) (response : ResponseData) :
  (StatusCode response <> 200 ->
     MakeBids L F a req ext response
     = Ret (None, [ErrResponseCode (StatusCode response)]) /\
     Error_message (ErrResponseCode (StatusCode response))
     = "failed to resolve bids from yieldlab response: Unexpected response code "
       +:+ FormatInt (StatusCode response)) /\
  (forall cause,
     StatusCode response = 200 ->
     Unmarshal_bids L (Body response) = inl cause ->
     MakeBids L F a req ext response = Ret (None, [ErrBidsBody cause])).
Proof.
  split.
  - intros Hcode. split; [|reflexivity].
    unfold MakeBids. apply Z.eqb_neq in Hcode. rewrite Hcode. reflexivity.
  - intros cause Hcode Hbody. unfold MakeBids. rewrite Hcode, Hbody. reflexivity.
Qed.

Lemma MakeBids_upstream_failure_witness :
  (MakeBids stubLib stubFormats adapter
     (request [banner_imp "1" "123"] None None) outbound
     {| StatusCode := 500; Body := body_one |}
   = Ret (None, [ErrResponseCode 500]) /\
   Error_message (ErrResponseCode 500)
   = "failed to resolve bids from yieldlab response: Unexpected response code 500") /\
  MakeBids stubLib stubFormats adapter
    (request [banner_imp "1" "123"] None None) outbound
    {| StatusCode := 200; Body := "<html>" |}
  = Ret (None, [ErrBidsBody "invalid character"]).
Proof.
  split.
  - apply (MakeBids_upstream_failure stubLib stubFormats adapter
             (request [banner_imp "1" "123"] None None) outbound
             {| StatusCode := 500; Body := body_one |}).
    simpl. lia.
  - apply (MakeBids_upstream_failure stubLib stubFormats adapter
             (request [banner_imp "1" "123"] None None) outbound
             {| StatusCode := 200; Body := "<html>" |});
      vm_compute; reflexivity.
Defined.

Lemma bidsLoop_past_last_imp (L : GoLib) (F : Formats) (a : YieldlabAdapter)
    (req : BidRequest) (requests : list ExtImpYieldlab)
    (bids : list (option bidResponse)) :
  forall i acc,
  (i <= length (Req_Imp req) < i + length bids)%nat ->
  (forall j pbid, (i + j <= length (Req_Imp req))%nat ->
                  bids !! j = Some pbid -> passes requests pbid) ->
  bidsLoop L F a req requests i bids acc
  = Panic (IndexOutOfRange (length (Req_Imp req)) (length (Req_Imp req))).
Proof.
  induction bids as [|pbid bids IH]; intros i acc Hi Hpass.
  - simpl in Hi. lia.
  - destruct (Hpass 0%nat pbid) as (bid & -> & Hsize & [r Hr]);
      [lia|reflexivity|].
    cbn [bidsLoop deref mbind Outcome_bind].
    destruct (splitSize (Adsize bid)) as [[w h] [err|]]; [discriminate|].
    rewrite Hr. unfold index_or_panic.
    destruct (Req_Imp req !! i) as [imp|] eqn:Himp.
    + apply lookup_lt_Some in Himp. simpl in Hi.
      assert (Hnext : forall j pb, (S i + j <= length (Req_Imp req))%nat ->
                 bids !! j = Some pb -> passes requests pb).
      { intros j pb Hj Hl. apply (Hpass (S j)); [lia|exact Hl]. }
      cbn [mbind Outcome_bind].
      destruct (Imp_Video imp); [|destruct (Imp_Banner imp)];
        apply IH; (lia || exact Hnext).
    + apply lookup_ge_None in Himp.
      replace i with (length (Req_Imp req)) by lia. reflexivity.
Qed.

(** C10.  When the response array is strictly longer than the request's list
    of line-items and every entry up to the one at the first index past the
    last line-item is processed without leaving the loop (that entry included:
    its size parses and its id is some line-item's slot ID), the positional
    read of the line-item is out of range: the call panics instead of
    returning an error. *)
Theorem MakeBids_index_out_of_range (L : GoLib) (F : Formats) (a : YieldlabAdapter)
    (req : BidRequest) (ext : RequestData) (response : ResponseData)
    (bids : list (option bidResponse)) (requests : list ExtImpYieldlab) :
  StatusCode response = 200 ->
  Unmarshal_bids L (Body response) = inr bids ->
  parseRequest L req = inr requests ->
  (length (Req_Imp req) < length bids)%nat ->
  (forall j pbid, (j <= length (Req_Imp req))%nat ->
                  bids !! j = Some pbid -> passes requests pbid) ->
  MakeBids L F a req ext response
  = Panic (IndexOutOfRange (length (Req_Imp req)) (length (Req_Imp req))).
Proof.
  intros Hcode Hbody Hreq Hlen Hpass.
  unfold MakeBids. rewrite Hcode, Hbody, Hreq. simpl.
  apply bidsLoop_past_last_imp; [simpl; lia|exact Hpass].
Qed.

Lemma MakeBids_index_out_of_range_witness :
  MakeBids stubLib stubFormats adapter
    (request [banner_imp "1" "123"] None None) outbound
    {| StatusCode := 200; Body := body_long |}
  = Panic (IndexOutOfRange 1 1).
Proof.
  apply (MakeBids_index_out_of_range stubLib stubFormats adapter
           (request [banner_imp "1" "123"] None None) outbound
           {| StatusCode := 200; Body := body_long |}
           [Some (entry 123 150 "300x250"); Some (entry 123 150 "300x250");
            Some (entry 999 150 "300x250")]
           [slot_params "123"]).
  - reflexivity.
  - vm_compute; reflexivity.
  - vm_compute; reflexivity.
  - simpl; lia.
  - intros j pbid Hj Hl. simpl in Hj.
    destruct j as [|[|j]]; [| |lia]; injection Hl as <-;
      (eexists; split; [reflexivity|split; [vm_compute; reflexivity|vm_compute; eauto]]).
Defined.

(** A response with an entry no line-item answers for, read within the range
    of the line-items, yields no bids and exactly one error. *)
Lemma bidsLoop_unmatched_in_range (L : GoLib) (F : Formats) (a : YieldlabAdapter)
    (req : BidRequest) (requests : list ExtImpYieldlab)
    (bids : list (option bidResponse)) :
  forall i acc,
  (i + length bids <= length (Req_Imp req))%nat ->
  Forall is_Some bids ->
  Exists (fun pbid => exists bid, pbid = Some bid /\
                        findBidReq (ID bid) requests = None) bids ->
  exists err, bidsLoop L F a req requests i bids acc = Ret (None, [err]).
Proof.
  induction bids as [|pbid bids IH]; intros i acc Hlen Hsome Hex.
  - inversion Hex.
  - apply Forall_cons in Hsome as [[bid ->] Hsome]. simpl in Hlen.
    cbn [bidsLoop deref mbind Outcome_bind].
    destruct (splitSize (Adsize bid)) as [[w h] [err|]]; [eauto|].
    destruct (findBidReq (ID bid) requests) as [r|] eqn:Hr; [|eauto].
    apply Exists_cons in Hex as [(bid' & [= <-] & Hnone)|Hex]; [congruence|].
    unfold index_or_panic.
    destruct (Req_Imp req !! i) as [imp|] eqn:Himp.
    2:{ apply lookup_ge_None in Himp. lia. }
    cbn [mbind Outcome_bind].
    destruct (Imp_Video imp); [|destruct (Imp_Banner imp)];
      apply IH; (lia || assumption).
Qed.

(** C1.  The response below has an entry for slot 999, which no line-item
    asked for.  With three line-items the call returns no bids and the one
    correlation error; with a single line-item the second entry, which does
    match, is read at position 1 of a one-element list and the call panics
    before the unmatched entry is reached. *)
Theorem MakeBids_unmatched_entry_after_overrun :
  findBidReq 999 [slot_params "123"] = None /\
  MakeBids stubLib stubFormats adapter
    (request [banner_imp "1" "123"; banner_imp "2" "123"; banner_imp "3" "123"]
       None None) outbound
    {| StatusCode := 200; Body := body_long |}
  = Ret (None, [ErrNoRequest 999]) /\
  MakeBids stubLib stubFormats adapter
    (request [banner_imp "1" "123"] None None) outbound
    {| StatusCode := 200; Body := body_long |}
  = Panic (IndexOutOfRange 1 1).
Proof. repeat split; vm_compute; reflexivity. Qed.

(** ** The parameter merger *)

Lemma append_assoc (s1 s2 s3 : string) : (s1 +:+ s2) +:+ s3 = s1 +:+ s2 +:+ s3.
Proof.
  induction s1 as [|c s1 IH]; [reflexivity|].
  change (String c ((s1 +:+ s2) +:+ s3) = String c (s1 +:+ s2 +:+ s3)).
  by rewrite IH.
Qed.

Lemma Join_fold (sep : string) (rest : list string) : forall e,
  fold_left (fun b s => b +:+ sep +:+ s) rest e = String.concat sep (e :: rest).
Proof.
  induction rest as [|r rest IH]; intros e; [reflexivity|].
  cbn [fold_left]. rewrite IH.
  destruct rest as [|r' rest]; cbn [String.concat]; [reflexivity|].
  by rewrite !append_assoc.
Qed.

Lemma Join_concat (elems : list string) (sep : string) :
  Join elems sep = String.concat sep elems.
Proof.
  destruct elems as [|e [|r rest]]; try reflexivity.
  unfold Join. apply Join_fold.
Qed.

Lemma map_fold_insert_union (m t : gmap string string) :
  map_fold (fun k v targeting => <[k := v]> targeting) t m = m ∪ t.
Proof.
  apply (map_fold_weak_ind (fun r m => r = m ∪ t)).
  - by rewrite (left_id_L ∅ (∪)).
  - intros k v m' r _ ->. by rewrite insert_union_l.
Qed.

(** The loop of [mergeParams] from any state: the slot IDs are appended in
    order, each line-item's targeting is laid over what is there. *)
Lemma mergeStep_fold (params : list ExtImpYieldlab) : forall ids t,
  fold_left mergeStep params (ids, t)
  = ((ids ++ (AdslotID <$> params))%list,
     fold_left (fun t p => Targeting p ∪ t) params t).
Proof.
  induction params as [|p params IH]; intros ids t; simpl.
  - by rewrite app_nil_r.
  - unfold mergeStep at 2. simpl. rewrite IH, map_fold_insert_union.
    by rewrite <- app_assoc.
Qed.

Lemma mergeParams_eq (params : list ExtImpYieldlab) :
  mergeParams params
  = inr {| AdslotID := String.concat adSlotIdSeparator (AdslotID <$> params);
           SupplyID := EmptyString;
           Targeting := fold_left (fun t p => Targeting p ∪ t) params ∅;
           ExtId := EmptyString |}.
Proof. unfold mergeParams. rewrite mergeStep_fold. simpl. by rewrite Join_concat. Qed.

Lemma layered_dom (params : list ExtImpYieldlab) :
  dom (fold_left (fun t p => Targeting p ∪ t) params (∅ : gmap string string))
  = ⋃ ((fun p => dom (Targeting p)) <$> params).
Proof.
  induction params as [|p params IH] using rev_ind; [apply dom_empty_L|].
  rewrite fold_left_app, fmap_app, union_list_app_L. simpl.
  rewrite dom_union_L, IH, (right_id_L ∅ (∪)). apply (comm_L (∪)).
Qed.

Lemma layered_last_wins (params : list ExtImpYieldlab) : forall i p k v,
  params !! i = Some p ->
  Targeting p !! k = Some v ->
  (forall j q, (i < j)%nat -> params !! j = Some q -> Targeting q !! k = None) ->
  fold_left (fun t p => Targeting p ∪ t) params (∅ : gmap string string) !! k
  = Some v.
Proof.
  induction params as [|p' params IH] using rev_ind; intros i p k v Hi Hk Hlast.
  - discriminate.
  - rewrite fold_left_app. simpl.
    destruct (decide (i = length params)) as [->|Hne].
    + rewrite list_lookup_middle in Hi by reflexivity. injection Hi as ->.
      by apply lookup_union_Some_l.
    + assert (Hlt : (i < length params)%nat).
      { apply lookup_lt_Some in Hi. rewrite length_app in Hi. simpl in Hi. lia. }
      rewrite lookup_union_r.
      * apply (IH i p); [by rewrite lookup_app_l in Hi|assumption|].
        intros j q Hj Hq. apply (Hlast j); [assumption|].
        rewrite lookup_app_l; [assumption|by eapply lookup_lt_Some].
      * apply (Hlast (length params)); [assumption|].
        by rewrite list_lookup_middle.
Qed.

(** C5.  For every ordered list of line-item parameters (the non-empty ones
    among them), the keys of the merged targeting map are exactly the union of
    the keys of the line-items' targeting maps; a key's merged value is the
    value of the last line-item that has the key; the merged slot ID is the
    slot IDs in input order with the separator between them, so that the slots
    123 and 456 merge to [123,456]. *)
Theorem mergeParams_union_last_wins (params : list ExtImpYieldlab) :
  exists merged,
    mergeParams params = inr merged /\
    dom (Targeting merged) = ⋃ ((fun p => dom (Targeting p)) <$> params) /\
    (forall i p k v,
        params !! i = Some p ->
        Targeting p !! k = Some v ->
        (forall j q, (i < j)%nat -> params !! j = Some q ->
                     Targeting q !! k = None) ->
        Targeting merged !! k = Some v) /\
    AdslotID merged = String.concat adSlotIdSeparator (AdslotID <$> params) /\
    (AdslotID <$> params = ["123"; "456"] -> AdslotID merged = "123,456").
Proof.
  eexists. split; [apply mergeParams_eq|]. simpl.
  split; [apply layered_dom|].
  split; [apply layered_last_wins|].
  split; [reflexivity|]. intros ->. reflexivity.
Qed.

Lemma mergeParams_union_last_wins_witness :
  exists merged,
    mergeParams [params_first; params_second] = inr merged /\
    Targeting merged !! "a" = Some "1" /\
    Targeting merged !! "b" = Some "3" /\
    AdslotID merged = "123,456".
Proof.
  destruct (mergeParams_union_last_wins [params_first; params_second])
    as (merged & Hm & _ & Hlast & _ & Hjoin).
  exists merged. split; [exact Hm|]. split; [|split].
  - apply (Hlast 0%nat params_first); [reflexivity|vm_compute; reflexivity|].
    intros j q Hj Hq. destruct j as [|[|j]]; [lia| |discriminate Hq].
    injection Hq as <-. vm_compute. reflexivity.
  - apply (Hlast 1%nat params_second); [reflexivity|vm_compute; reflexivity|].
    intros j q Hj Hq. destruct j as [|[|j]]; [lia|lia|discriminate Hq].
  - apply Hjoin. reflexivity.
Defined.

(** ** The regulatory signal and the two URL builders *)

Section Regulatory.

Context (L : GoLib).

Lemma setGDPR_both (gdpr consent : string) (q : Values) :
  gdpr <> EmptyString -> consent <> EmptyString ->
  setGDPR gdpr consent q !! "gdpr" = Some [gdpr] /\
  setGDPR gdpr consent q !! "consent" = Some [consent].
Proof.
  intros Hg Hc. unfold setGDPR, nonempty, Values_Set.
  apply String.eqb_neq in Hg, Hc. rewrite Hg, Hc. simpl.
  rewrite lookup_insert_ne by discriminate.
  by rewrite !lookup_insert_eq.
Qed.

Lemma setGDPR_nothing (gdpr consent : string) (q : Values) :
  gdpr = EmptyString \/ consent = EmptyString ->
  setGDPR gdpr consent q = q.
Proof.
  intros [-> | ->]; unfold setGDPR, nonempty; simpl; [reflexivity|].
  by rewrite andb_false_r.
Qed.

(** The endpoint builder itself never writes a regulatory key: what the
    query holds under such a key is what the configured endpoint carried. *)
Lemma endpointValues_regulatory_keys (a : YieldlabAdapter) (req : BidRequest)
    (params : ExtImpYieldlab) (uri : URL) (k : string) :
  k = "gdpr" \/ k = "consent" ->
  endpointValues L a req params uri !! k = URL_Query L uri !! k.
Proof.
  intros Hk. unfold endpointValues, Values_Set.
  destruct (Req_App req) as [app|];
    destruct (Req_Device req) as [device|];
    [destruct (Device_Geo device), (ConnectionType device)
    | |destruct (Device_Geo device), (ConnectionType device)| ];
    destruct (Req_User req) as [user|];
    try destruct (nonempty (BuyerUID user));
    destruct Hk as [-> | ->];
    by rewrite ?lookup_insert_ne by discriminate.
Qed.

Lemma adSourceValues_base (a : YieldlabAdapter) (req : BidRequest)
    (ext : ExtImpYieldlab) (res : bidResponse) (q : Values) :
  q = (let val := Values_Set "ts" (cacheBuster a tt) ∅ in
       let val := Values_Set "id" (ExtId ext) val in
       let val := Values_Set "pvid" (Pvid res) val in
       match Req_User req with
       | Some user => Values_Set "ids" ("ylid:" +:+ BuyerUID user) val
       | None => val
       end) ->
  q !! "ts" = Some [cacheBuster a tt] /\
  q !! "id" = Some [ExtId ext] /\
  q !! "pvid" = Some [Pvid res] /\
  q !! "gdpr" = None /\
  q !! "consent" = None.
Proof.
  intros ->. unfold Values_Set. destruct (Req_User req) as [user|];
    repeat split;
    rewrite ?lookup_insert_ne by discriminate;
    (apply lookup_insert_eq || apply lookup_empty).
Qed.

Lemma setGDPR_other_keys (gdpr consent k : string) (q : Values) :
  k <> "gdpr" -> k <> "consent" -> setGDPR gdpr consent q !! k = q !! k.
Proof.
  intros Hg Hc. unfold setGDPR, Values_Set.
  destruct (_ && _); [|reflexivity]. by rewrite !lookup_insert_ne.
Qed.

End Regulatory.

(** C4.  Whenever the outbound endpoint URL is built (the endpoint parses
    and the regulatory signal is extracted), the builder writes the gdpr and
    the consent parameter, with the extracted values, when the extracted flag
    and the extracted consent are both non-empty, and writes neither of them
    when either is empty.  So, the configured endpoint carrying no regulatory
    parameter of its own, the URL's query holds both parameters exactly when
    both values are non-empty, and holds neither otherwise. *)
Theorem makeEndpointURL_both_or_nothing (L : GoLib) (a : YieldlabAdapter)
    (req : BidRequest) (params : ExtImpYieldlab) (uri : URL)
    (gdpr consent : string) :
  url_Parse L (endpoint a) = inr uri ->
  getGDPR L req = inr (gdpr, consent) ->
  exists q,
    makeEndpointURL L a req params
    = inr (URL_String L
             {| Scheme := Scheme uri;
                Host := Host uri;
                Path := path_Join L (Path uri) (AdslotID params);
                RawQuery := Values_Encode L q |}) /\
    (gdpr <> EmptyString /\ consent <> EmptyString ->
     q !! "gdpr" = Some [gdpr] /\ q !! "consent" = Some [consent]) /\
    (gdpr = EmptyString \/ consent = EmptyString ->
     q !! "gdpr" = URL_Query L uri !! "gdpr" /\
     q !! "consent" = URL_Query L uri !! "consent") /\
    (URL_Query L uri !! "gdpr" = None ->
     URL_Query L uri !! "consent" = None ->
     (is_Some (q !! "gdpr") /\ is_Some (q !! "consent")
      <-> gdpr <> EmptyString /\ consent <> EmptyString) /\
     (gdpr = EmptyString \/ consent = EmptyString ->
      q !! "gdpr" = None /\ q !! "consent" = None)).
Proof.
  intros Huri Hsig.
  exists (setGDPR gdpr consent (endpointValues L a req params uri)).
  split; [unfold makeEndpointURL; by rewrite Huri, Hsig|].
  assert (Hkeep : gdpr = EmptyString \/ consent = EmptyString ->
            setGDPR gdpr consent (endpointValues L a req params uri) !! "gdpr"
            = URL_Query L uri !! "gdpr" /\
            setGDPR gdpr consent (endpointValues L a req params uri) !! "consent"
            = URL_Query L uri !! "consent").
  { intros Hempty. rewrite (setGDPR_nothing _ _ _ Hempty).
    rewrite !endpointValues_regulatory_keys by auto. by split. }
  split; [intros [Hg Hc]; by apply setGDPR_both|].
  split; [exact Hkeep|].
  intros Hqg Hqc. rewrite Hqg, Hqc in Hkeep. split; [|exact Hkeep].
  split.
  - intros [[vg Hg] _].
    destruct (decide (gdpr = EmptyString)) as [Hge|Hge];
      [destruct (Hkeep (or_introl Hge)); congruence|].
    destruct (decide (consent = EmptyString)) as [Hce|Hce];
      [destruct (Hkeep (or_intror Hce)); congruence|].
    by split.
  - intros [Hg Hc]. destruct (setGDPR_both gdpr consent
      (endpointValues L a req params uri) Hg Hc) as [-> ->]. by split.
Qed.

Lemma makeEndpointURL_both_or_nothing_witness :
  (exists q,
      makeEndpointURL stubLib adapter
        (request [banner_imp "1" "123"]
           (Some {| BuyerUID := "uid"; User_Ext := Some user_consent |})
           (Some {| Regs_Ext := Some regs_gdpr1 |}))
        (slot_params "123")
      = inr (URL_String stubLib
               {| Scheme := "https"; Host := "ad.yieldlab.net";
                  Path := "/yp/123"; RawQuery := Values_Encode stubLib q |}) /\
      q !! "gdpr" = Some ["1"] /\ q !! "consent" = Some ["abc"]) /\
  (exists q,
      makeEndpointURL stubLib adapter
        (request [banner_imp "1" "123"] None
           (Some {| Regs_Ext := Some regs_gdpr1 |}))
        (slot_params "123")
      = inr (URL_String stubLib
               {| Scheme := "https"; Host := "ad.yieldlab.net";
                  Path := "/yp/123"; RawQuery := Values_Encode stubLib q |}) /\
      q !! "gdpr" = None /\ q !! "consent" = None).
Proof.
  split.
  - destruct (makeEndpointURL_both_or_nothing stubLib adapter
                (request [banner_imp "1" "123"]
                   (Some {| BuyerUID := "uid"; User_Ext := Some user_consent |})
                   (Some {| Regs_Ext := Some regs_gdpr1 |}))
                (slot_params "123")
                {| Scheme := "https"; Host := "ad.yieldlab.net";
                   Path := "/yp"; RawQuery := EmptyString |} "1" "abc")
      as (q & Hurl & Hboth & _); try (vm_compute; reflexivity).
    exists q. split; [exact Hurl|]. apply Hboth. split; discriminate.
  - destruct (makeEndpointURL_both_or_nothing stubLib adapter
                (request [banner_imp "1" "123"] None
                   (Some {| Regs_Ext := Some regs_gdpr1 |}))
                (slot_params "123")
                {| Scheme := "https"; Host := "ad.yieldlab.net";
                   Path := "/yp"; RawQuery := EmptyString |} "1" EmptyString)
      as (q & Hurl & _ & _ & Hnone); try (vm_compute; reflexivity).
    exists q. split; [exact Hurl|].
    apply Hnone; [vm_compute; reflexivity..|by right].
Defined.

(** C9.  For every input the ad-source URL is built: it is the URL format
    applied to the slot ID, the supply ID, the size and the encoded query, and
    the banner markup is the banner format applied to that URL.  The query
    always holds the cache-busting token, the external ID and the per-view ID.
    When the regulatory extraction fails, the query holds neither gdpr nor
    consent and the URL is built all the same, whereas the endpoint builder
    returns that failure; when the extraction succeeds the two parameters are
    present together or not at all. *)
Theorem makeAdSourceURL_never_fails (L : GoLib) (F : Formats) (a : YieldlabAdapter)
    (req : BidRequest) (ext : ExtImpYieldlab) (res : bidResponse) :
  exists q,
    makeAdSourceURL L F a req ext res
    = adSourceURL F (AdslotID ext) (SupplyID ext) (Adsize res) (Values_Encode L q) /\
    makeBannerAdSource L F a req ext res
    = adSourceBanner F
        (adSourceURL F (AdslotID ext) (SupplyID ext) (Adsize res) (Values_Encode L q)) /\
    q !! "ts" = Some [cacheBuster a tt] /\
    q !! "id" = Some [ExtId ext] /\
    q !! "pvid" = Some [Pvid res] /\
    (forall err,
        getGDPR L req = inl err ->
        q !! "gdpr" = None /\ q !! "consent" = None /\
        forall params uri,
          url_Parse L (endpoint a) = inr uri ->
          makeEndpointURL L a req params = inl err) /\
    (forall gdpr consent,
        getGDPR L req = inr (gdpr, consent) ->
        (gdpr <> EmptyString /\ consent <> EmptyString ->
         q !! "gdpr" = Some [gdpr] /\ q !! "consent" = Some [consent]) /\
        (gdpr = EmptyString \/ consent = EmptyString ->
         q !! "gdpr" = None /\ q !! "consent" = None)).
Proof.
  exists (adSourceValues L a req ext res).
  split; [reflexivity|]. split; [reflexivity|].
  destruct (adSourceValues_base a req ext res _ eq_refl)
    as (Hts & Hid & Hpvid & Hg & Hc).
  unfold adSourceValues.
  destruct (getGDPR L req) as [err|[gdpr consent]] eqn:Hsig.
  - repeat (split; [assumption|]). split; [|intros ? ? [=]].
    intros err' [= <-]. repeat (split; [assumption|]).
    intros params uri Huri. unfold makeEndpointURL. by rewrite Huri, Hsig.
  - rewrite !setGDPR_other_keys by discriminate.
    repeat (split; [assumption|]). split; [intros ? [=]|].
    intros gdpr' consent' [= <- <-]. split.
    + intros [Hgn Hcn]. by apply setGDPR_both.
    + intros Hempty. rewrite (setGDPR_nothing _ _ _ Hempty). by split.
Qed.

Lemma makeAdSourceURL_never_fails_witness :
  exists q,
    makeAdSourceURL stubLib stubFormats adapter
      (request [banner_imp "1" "123"] None (Some {| Regs_Ext := Some "oops" |}))
      (slot_params "123") (entry 123 150 "300x250")
    = adSourceURL stubFormats "123" "1" "300x250" (Values_Encode stubLib q) /\
    q !! "gdpr" = None /\ q !! "consent" = None /\
    makeEndpointURL stubLib adapter
      (request [banner_imp "1" "123"] None (Some {| Regs_Ext := Some "oops" |}))
      (slot_params "123")
    = inl (ErrExtRegs "invalid character").
Proof.
  destruct (makeAdSourceURL_never_fails stubLib stubFormats adapter
              (request [banner_imp "1" "123"] None
                 (Some {| Regs_Ext := Some "oops" |}))
              (slot_params "123") (entry 123 150 "300x250"))
    as (q & Hurl & _ & _ & _ & _ & Herr & _).
  destruct (Herr (ErrExtRegs "invalid character")) as (Hg & Hc & Hend);
    [vm_compute; reflexivity|].
  exists q. split; [exact Hurl|]. split; [exact Hg|]. split; [exact Hc|].
  eapply Hend. vm_compute. reflexivity.
Defined.

(** ** The regulatory extractor on a request without a regulatory extension *)

(** The flag is emitted only for 0 and 1; any other value leaves it out
    without an error. *)
Lemma getGDPR_flag_outside (L : GoLib) (req : BidRequest) (regs : Regs)
    (extRegs : ExtRegs) (g : Z) :
  Req_Regs req = Some regs ->
  Unmarshal_ExtRegs L (raw_bytes (Regs_Ext regs)) = inr extRegs ->
  GDPR extRegs = Some g -> g <> 0 -> g <> 1 ->
  Req_User req = None ->
  getGDPR L req = inr (EmptyString, EmptyString).
Proof.
  intros Hregs Hdec Hflag H0 H1 Huser. unfold getGDPR.
  rewrite Hregs, Hdec, Hflag, Huser.
  apply Z.eqb_neq in H0, H1. by rewrite H0, H1.
Qed.

Lemma getGDPR_absent (L : GoLib) (req : BidRequest) :
  Req_Regs req = None ->
  (Req_User req = None \/
   exists user, Req_User req = Some user /\ User_Ext user = None) ->
  getGDPR L req = inr (EmptyString, EmptyString).
Proof.
  intros Hregs [Huser|(user & Huser & Hext)]; unfold getGDPR;
    rewrite Hregs, Huser; [reflexivity|by rewrite Hext].
Qed.

(** The extraction fails exactly when a decoder is run and fails: the
    regulatory decoder runs whenever the request has a [Regs] object, the user
    decoder only on a non-nil user extension. *)
Lemma getGDPR_error_iff (L : GoLib) (req : BidRequest) :
  (exists err, getGDPR L req = inl err) <->
  (exists regs cause,
      Req_Regs req = Some regs /\
      Unmarshal_ExtRegs L (raw_bytes (Regs_Ext regs)) = inl cause) \/
  (exists user ext cause,
      Req_User req = Some user /\ User_Ext user = Some ext /\
      Unmarshal_ExtUser L ext = inl cause).
Proof.
  assert (Huser_side : forall gdpr : string,
    (exists err,
        match Req_User req with
        | Some user =>
            match User_Ext user with
            | Some ext =>
                match Unmarshal_ExtUser L ext with
                | inl err => inl (ErrExtUser err)
                | inr extUser => inr (gdpr, Consent extUser)
                end
            | None => inr (gdpr, EmptyString)
            end
        | None => inr (gdpr, EmptyString)
        end = inl err) <->
    (exists user ext cause,
        Req_User req = Some user /\ User_Ext user = Some ext /\
        Unmarshal_ExtUser L ext = inl cause)).
  { intros gdpr. destruct (Req_User req) as [user|].
    - destruct (User_Ext user) as [ext|] eqn:Hext.
      + destruct (Unmarshal_ExtUser L ext) as [cause|extUser] eqn:Hdec.
        * split; [intros _|]; eauto 8.
        * split; [intros [? [=]]|intros (u & e & c & [= <-] & He & Hc)].
          rewrite Hext in He. injection He as <-. congruence.
      + split; [intros [? [=]]|intros (u & e & c & [= <-] & He & _)]. congruence.
    - split; [intros [? [=]]|intros (u & e & c & [=] & _)]. }
  unfold getGDPR. destruct (Req_Regs req) as [regs|].
  - destruct (Unmarshal_ExtRegs L _) as [cause|extRegs] eqn:Hregs.
    + split; [intros _; left|]; eauto.
    + destruct (GDPR extRegs) as [g|]; [destruct ((g =? 0) || (g =? 1))|];
        cbv zeta; rewrite Huser_side;
        (split; [by right|intros [(r & c & [= <-] & Hc)|Hu]; [congruence|exact Hu]]).
  - cbv zeta. rewrite Huser_side.
    split; [by right|intros [(r & c & [=] & _)|Hu]; exact Hu].
Qed.

(** C8.  A request that has a regulatory object but no regulatory extension
    in it (the extension is the nil slice, on which the JSON decoder reports
    the end of its input) makes the extraction fail, although no payload is
    present; the user side checks for the nil extension and succeeds with an
    empty consent. *)
Theorem getGDPR_regs_without_ext (L : GoLib) (req : BidRequest) (regs : Regs)
    (cause : string) :
  Unmarshal_ExtRegs L EmptyString = inl cause ->
  Req_Regs req = Some regs ->
  Regs_Ext regs = None ->
  getGDPR L req = inl (ErrExtRegs cause) /\
  (forall user,
     Req_User req = Some user -> User_Ext user = None ->
     getGDPR L {| Req_Imp := Req_Imp req; Req_Site := Req_Site req;
                  Req_Device := Req_Device req; Req_User := Req_User req;
                  Req_App := Req_App req; Req_Regs := None |}
     = inr (EmptyString, EmptyString)).
Proof.
  intros Hnil Hregs Hext. split.
  - unfold getGDPR. rewrite Hregs, Hext. simpl. by rewrite Hnil.
  - intros user Huser Huext. apply getGDPR_absent; [reflexivity|].
    right. by exists user.
Qed.

Lemma getGDPR_regs_without_ext_witness :
  getGDPR stubLib
    (request [banner_imp "1" "123"]
       (Some {| BuyerUID := "uid"; User_Ext := None |})
       (Some {| Regs_Ext := None |}))
  = inl (ErrExtRegs "unexpected end of JSON input") /\
  getGDPR stubLib
    (request [banner_imp "1" "123"]
       (Some {| BuyerUID := "uid"; User_Ext := None |}) None)
  = inr (EmptyString, EmptyString).
Proof.
  destruct (getGDPR_regs_without_ext stubLib
              (request [banner_imp "1" "123"]
                 (Some {| BuyerUID := "uid"; User_Ext := None |})
                 (Some {| Regs_Ext := None |}))
              {| Regs_Ext := None |} "unexpected end of JSON input")
    as [Herr Huser]; try reflexivity.
  split; [exact Herr|]. by apply (Huser {| BuyerUID := "uid"; User_Ext := None |}).
Defined.

(** ** The cache client *)

Section CacheClient.

Import Cache.

Lemma visit_in_range (body : string) (st : LoopState) (r : JSON) :
  (currentIndex st < length (uuidsToReturn st))%nat ->
  exists st',
    visit body st r = Ret st' /\
    currentIndex st' = S (currentIndex st) /\
    length (uuidsToReturn st') = length (uuidsToReturn st).
Proof.
  intros Hlt. unfold visit, store.
  destruct (Get r "uuid") as [[| | |id| |]|];
    try (eexists; split; [reflexivity|by split]).
  destruct (decide _) as [_|Hge]; [|contradiction].
  eexists. split; [reflexivity|]. split; [reflexivity|]. apply length_insert.
Qed.

Lemma visit_steps (body : string) (st st' : LoopState) (r : JSON) :
  visit body st r = Ret st' ->
  currentIndex st' = S (currentIndex st) /\
  length (uuidsToReturn st') = length (uuidsToReturn st).
Proof.
  unfold visit, store.
  destruct (Get r "uuid") as [[| | |id| |]|];
    try (intros [= <-]; by split).
  destruct (decide _) as [_|_]; [|discriminate].
  intros [= <-]. split; [reflexivity|]. apply length_insert.
Qed.

(** No more elements than slots: the loop runs to its end and the slice
    keeps its length. *)
Lemma forEach_in_range (body : string) (responses : list JSON) : forall st,
  (currentIndex st + length responses <= length (uuidsToReturn st))%nat ->
  exists st',
    forEach body responses st = Ret st' /\
    length (uuidsToReturn st') = length (uuidsToReturn st).
Proof.
  induction responses as [|r responses IH]; intros st Hlen; simpl in *.
  - by exists st.
  - destruct (visit_in_range body st r) as (st1 & -> & Hidx & Hl); [lia|].
    cbn [mbind Outcome_bind].
    destruct (IH st1) as (st' & -> & Hl'); [lia|].
    exists st'. split; [reflexivity|congruence].
Qed.

(** An element with a string ID at a position past the last slot: the store
    panics. *)
Lemma forEach_overrun (body : string) (responses : list JSON) : forall st j r id,
  responses !! j = Some r ->
  Get r "uuid" = Some (JString id) ->
  (length (uuidsToReturn st) <= currentIndex st + j)%nat ->
  exists i, forEach body responses st
            = Panic (IndexOutOfRange i (length (uuidsToReturn st))).
Proof.
  induction responses as [|r0 responses IH]; intros st j r id Hj Hid Hlen.
  - discriminate.
  - cbn [forEach]. destruct (visit body st r0) as [st1|p] eqn:Hv.
    + cbn [mbind Outcome_bind]. destruct (visit_steps _ _ _ _ Hv) as [Hidx Hl].
      destruct j as [|j].
      * injection Hj as ->. unfold visit in Hv. rewrite Hid in Hv.
        unfold store in Hv. destruct (decide _) as [Hlt|_]; [|discriminate].
        simpl in Hlen. lia.
      * rewrite <- Hl. apply (IH st1 j r id Hj Hid). lia.
    + cbn [mbind Outcome_bind]. unfold visit in Hv.
      destruct (Get r0 "uuid") as [[| | |id0| |]|]; try discriminate.
      unfold store in Hv. destruct (decide _); [discriminate|].
      injection Hv as <-. by eexists.
Qed.

Context (E : CacheLib).

(** When the service never answers with more elements than values were
    put, the call returns as many IDs as there were values. *)
Lemma PutJson_equal_length (c : clientImpl) (values : list RawMessage) :
  (forall httpReq resp doc responses,
      Do E httpReq = inr resp ->
      gjson_parse E (Resp_Body resp) = Some doc ->
      Get doc "responses" = Some (JArray responses) ->
      (length responses <= length values)%nat) ->
  exists uuids logs,
    PutJson E c values = Ret (uuids, logs) /\ length uuids = length values.
Proof.
  intros Hshort. unfold PutJson.
  destruct (length values <? 1)%nat eqn:Hempty.
  { apply Nat.ltb_lt in Hempty. exists [], []. split; [reflexivity|].
    simpl. lia. }
  destruct (encodeValues E values) as [err|postBody];
    [do 2 eexists; split; [reflexivity|apply length_replicate]|].
  destruct (NewRequest E _ _ _) as [err|httpReq];
    [do 2 eexists; split; [reflexivity|apply length_replicate]|].
  destruct (Do E _) as [err|anResp] eqn:Hdo;
    [do 2 eexists; split; [reflexivity|apply length_replicate]|].
  destruct (negb _);
    [do 2 eexists; split; [reflexivity|apply length_replicate]|].
  destruct (gjson_parse E _) as [doc|] eqn:Hdoc;
    [|do 2 eexists; split; [reflexivity|apply length_replicate]].
  destruct (Get doc "responses") as [[| | | |responses|]|] eqn:Hresp;
    try (do 2 eexists; split; [reflexivity|apply length_replicate]).
  specialize (Hshort _ _ _ _ Hdo Hdoc Hresp).
  destruct (forEach_in_range (Resp_Body anResp) responses
              {| currentIndex := 0;
                 uuidsToReturn := replicate (length values) EmptyString;
                 logged := [] |}) as (st' & -> & Hl).
  { simpl. rewrite length_replicate. lia. }
  cbn [mbind Outcome_bind]. do 2 eexists. split; [reflexivity|].
  rewrite Hl. simpl. apply length_replicate.
Qed.

(** C3.  When the cache service answers 200 with a responses array that has
    an element with a string ID at a position past the number of values put,
    [PutJson] does not return a list at all: the store into the result
    slice is out of range and the call panics. *)
Theorem PutJson_longer_responses_panics (c : clientImpl)
    (values : list RawMessage) (postBody : string) (httpReq : HTTPRequest)
    (anResp : HTTPResponse) (doc : JSON) (responses : list JSON)
    (j : nat) (r : JSON) (id : string) :
  values <> [] ->
  encodeValues E values = inr postBody ->
  NewRequest E "POST" (putUrl c) postBody = inr httpReq ->
  Do E {| Req_Method := Req_Method httpReq;
          Req_URL := Req_URL httpReq;
          Req_Header :=
            Header_Add "Accept" "application/json"
              (Header_Add "Content-Type" "application/json;charset=utf-8"
                 (Req_Header httpReq));
          Req_Body := Req_Body httpReq |} = inr anResp ->
  Resp_StatusCode anResp = 200 ->
  gjson_parse E (Resp_Body anResp) = Some doc ->
  Get doc "responses" = Some (JArray responses) ->
  responses !! j = Some r ->
  Get r "uuid" = Some (JString id) ->
  (length values <= j)%nat ->
  exists i, PutJson E c values = Panic (IndexOutOfRange i (length values)).
Proof.
  intros Hne Henc Hnew Hdo Hcode Hdoc Hresp Hj Hid Hlen. unfold PutJson.
  destruct values as [|v values]; [contradiction|].
  cbn [length Nat.ltb Nat.leb]. rewrite Henc, Hnew, Hdo, Hcode, Hdoc, Hresp.
  cbn [Z.eqb Pos.eqb negb].
  destruct (forEach_overrun (Resp_Body anResp) responses
              {| currentIndex := 0;
                 uuidsToReturn := replicate (length (v :: values)) EmptyString;
                 logged := [] |} j r id Hj Hid) as [i Hi].
  { simpl. rewrite length_replicate. simpl in Hlen. lia. }
  exists i. cbn [length] in Hi |- *. rewrite Hi. cbn [mbind Outcome_bind].
  simpl. by rewrite length_replicate.
Qed.

End CacheClient.

Lemma PutJson_longer_responses_panics_witness :
  exists i,
    Cache.PutJson stubCache cacheClient [Some "1"] = Panic (IndexOutOfRange i 1).
Proof.
  eapply (PutJson_longer_responses_panics stubCache cacheClient [Some "1"]
            _ _ _ cache_doc _ 1%nat
            (Cache.JObject [("uuid", Cache.JString "second")]) "second");
    try (vm_compute; reflexivity).
  discriminate.
Defined.

(** ** The price: binary64 conversion and division *)






Lemma fexp_normal (z : Z) : -1021 <= z -> fexp 53 1024 z = z - 53.
Proof. unfold fexp, emin. lia. Qed.














(** When the hundredth is not a binary64 number the quotient is rounded: one
    minor unit gives 5764607523034235 / 2^59, which is not one hundredth. *)
Example price_of_one_is_rounded :
  float64_div (float64_of_uint 1) (float64_of_uint 100)
  = S754_finite false 5764607523034235 (-59) /\
  ~ represents (float64_div (float64_of_uint 1) (float64_of_uint 100)) 1 100.
Proof. split; [reflexivity|vm_compute; discriminate]. Qed.




